(** * forestgiant/leapmotion: the WebSocket client and the point normaliser

    A shallow embedding of [leapmotion.go] and the properties of its two
    parts: [InteractionBox.NormalizePoint] (pure float64 arithmetic) and the
    [Client] life cycle ([Connect], [processData], [Close], [Done]).

    Conventions of the embedding:
    - [float64] is Rocq's primitive binary64 [float]; Go's arithmetic on
      [float64] (IEEE 754, round to nearest even) is [PrimFloat]'s.
    - [int] is [Z]; [float64(n)] rounds to the nearest binary64 value.
    - a slice [[]T] is [option (list T)], [None] being the [nil] slice.
    - an [error] is the message given to [errors.New].
    - pointers are indices into the tables of a [World]; the goroutine of
      [processData], the caller and the network take turns in a schedule.
    - a frame handler reads the frame it is passed and returns; its calls
      are recorded with the pointer and the content of the frame. *)

From Stdlib Require Import ZArith List String Bool Lia Floats.
From stdpp Require Import base option list.
Import ListNotations.

Set Warnings "-inexact-float".
Open Scope Z_scope.

(** ** Go values *)

Definition error := string.

Definition errors_New (text : string) : error := text.

Definition slice (A : Type) : Type := option (list A).

(** [len(s)]; the nil slice has length 0. *)
Definition len {A : Type} (s : slice A) : Z :=
  match s with
  | None => 0
  | Some l => Z.of_nat (length l)
  end.

(** [s == nil]. *)
Definition is_nil {A : Type} (s : slice A) : bool :=
  match s with
  | None => true
  | Some _ => false
  end.

(** What running a piece of Go code ends in: a normal return or a run-time
    panic (the only one possible in [NormalizePoint] is an index out of
    range). *)
Inductive outcome (A : Type) : Type :=
| Ret (a : A)
| Panic (msg : string).

Arguments Ret {A} a.
Arguments Panic {A} msg.

(** Sequencing: a panic skips the rest.  With these instances stdpp's
    [x ← m; k] reads as one Go statement after another. *)
#[global] Instance outcome_ret : MRet outcome := fun A a => Ret a.

#[global] Instance outcome_bind : MBind outcome := fun A B k m =>
  match m with
  | Ret a => k a
  | Panic msg => Panic msg
  end.

(** [s[k]] as an expression. *)
Definition index {A : Type} (s : slice A) (k : nat) : outcome A :=
  match s with
  | None => Panic "index out of range"
  | Some l =>
      match nth_error l k with
      | Some x => Ret x
      | None => Panic "index out of range"
      end
  end.

(** [s[k] = x] as a statement. *)
Definition store {A : Type} (s : slice A) (k : nat) (x : A) : outcome (slice A) :=
  match s with
  | None => Panic "index out of range"
  | Some l =>
      if (k <? length l)%nat then Ret (Some (<[k:=x]> l))
      else Panic "index out of range"
  end.

(** ** float64 *)

(** [float64(n)] for an [int] n. *)
Definition float64_of_int (n : Z) : float :=
  SF2Prim (binary_normalize prec emax n 0 false).

(** [math.IsInf(f, sign)]. *)
Definition math_IsInf (f : float) (sign : Z) : bool :=
  ((0 <=? sign) && (f =? infinity)%float) || ((sign <=? 0) && (f =? neg_infinity)%float).

(** [math.IsNaN(f)]: [f != f]. *)
Definition math_IsNaN (f : float) : bool := negb (f =? f)%float.

(** [math.Signbit(x)]: the sign bit, also of a zero. *)
Definition math_Signbit (x : float) : bool := get_sign x.

(** [math.Inf(sign)] and [math.NaN()]. *)
Definition math_Inf (sign : Z) : float :=
  if 0 <=? sign then infinity else neg_infinity.

Definition math_NaN : float := nan.

(** [math.Max(x, y)], with the special cases of the Go library:
    Max(x, +Inf) = Max(+Inf, x) = +Inf, Max(x, NaN) = Max(NaN, x) = NaN,
    Max(+0, ±0) = Max(±0, +0) = +0, Max(-0, -0) = -0. *)
Definition math_Max (x y : float) : float :=
  if math_IsInf x 1 || math_IsInf y 1 then math_Inf 1
  else if math_IsNaN x || math_IsNaN y then math_NaN
  else if (x =? 0)%float && (x =? y)%float then
    (if math_Signbit x then y else x)
  else if (y <? x)%float then x
  else y.

(** [math.Min(x, y)], with the special cases of the Go library:
    Min(x, -Inf) = Min(-Inf, x) = -Inf, Min(x, NaN) = Min(NaN, x) = NaN,
    Min(-0, ±0) = Min(±0, -0) = -0. *)
Definition math_Min (x y : float) : float :=
  if math_IsInf x (-1) || math_IsInf y (-1) then math_Inf (-1)
  else if math_IsNaN x || math_IsNaN y then math_NaN
  else if (x =? 0)%float && (x =? y)%float then
    (if math_Signbit x then x else y)
  else if (x <? y)%float then x
  else y.

(** ** The data format *)

Definition defaultLeapWebSocketAddress : string := "ws://localhost:6437/v6.json".

(** DeviceEvent is sent from the server to the client when the service is
    paused or resumed and when the controller is plugged in or unplugged
    (declared in the source, not used by it). *)
Record DeviceEvent : Type := mkDeviceEvent {
  DeviceEvent_ID : string;
  DeviceEvent_Attached : bool;
  DeviceEvent_Streaming : bool;
  DeviceEvent_Type : string
}.

(** Gesture represents a Gesture object in a Frame. *)
Record Gesture : Type := mkGesture {
  Gesture_Center : slice float;
  Gesture_Direction : slice float;
  Gesture_Duration : Z;
  Gesture_HandsIDs : slice Z;
  Gesture_ID : Z;
  Gesture_Normal : slice float;
  Gesture_PointableIDs : slice Z;
  Gesture_Position : slice float;
  Gesture_Progress : float;
  Gesture_Radius : float;
  Gesture_Speed : float;
  Gesture_StartPosition : slice float;
  Gesture_State : string;
  Gesture_Type : string
}.

(** Hand represents a Hand object in a Frame. *)
Record Hand : Type := mkHand {
  Hand_ArmBasis : slice float;
  Hand_ArmWidth : float;
  Hand_Confidence : float;
  Hand_Direction : slice float;
  Hand_Elbow : slice float;
  Hand_GrabStrength : float;
  Hand_ID : Z;
  Hand_PalmNormal : slice float;
  Hand_PalmPosition : slice float;
  Hand_PalmVelocity : slice float;
  Hand_PinchStrength : float;
  Hand_R : slice (slice float);
  Hand_S : float;
  Hand_SphereCenter : slice float;
  Hand_SphereRadius : float;
  Hand_StabilizedPalmPosition : slice float;
  Hand_T : slice float;
  Hand_TimeVisible : float;
  Hand_Type : string;
  Hand_Wrist : slice float
}.

(** InteractionBox represents an interactionBox in a Frame. *)
Record InteractionBox : Type := mkInteractionBox {
  Center : slice Z;
  Size : slice float
}.

(** Pointable represents a Pointable in a Frame. *)
Record Pointable : Type := mkPointable {
  Pointable_Bases : slice float;
  Pointable_BtipPosition : slice float;
  Pointable_CarpPosition : slice float;
  Pointable_DipPosition : slice float;
  Pointable_Direction : slice float;
  Pointable_Extended : bool;
  Pointable_HandID : Z;
  Pointable_ID : Z;
  Pointable_Length : float;
  Pointable_McpPosition : slice float;
  Pointable_PipPosition : slice float;
  Pointable_StabilizedTipPosition : slice float;
  Pointable_TimeVisible : float;
  Pointable_TipPosition : slice float;
  Pointable_TipVelocity : slice float;
  Pointable_Tool : bool;
  Pointable_TouchDistance : float;
  Pointable_TouchZone : string;
  Pointable_Type : Z;
  Pointable_Width : float
}.

(** Frame represents the tracking data format. *)
Record Frame : Type := mkFrame {
  Frame_CurrentFrameRate : float;
  Frame_ID : float;
  Frame_R : slice (slice float);
  Frame_S : float;
  Frame_T : slice float;
  Frame_Timestamp : Z;
  Frame_Gestures : slice Gesture;
  Frame_Hands : slice Hand;
  Frame_InteractionBox : InteractionBox;
  Frame_Pointables : slice Pointable
}.

(** The zero value [Frame{}]. *)
Definition Frame_zero : Frame :=
  mkFrame 0%float 0%float None 0%float None 0 None None
          (mkInteractionBox None None) None.

(** ** NormalizePoint *)

(** [math.Min(math.Max(v, 0), 1)], the clamping expression of lines 114-116. *)
Definition clamp01 (v : float) : float := math_Min (math_Max v 0%float) 1%float.

(** [((position[k] - float64(i.Center[k])) / i.Size[k]) + 0.5] *)
Definition affine (i : InteractionBox) (position : slice float) (k : nat) : outcome float :=
  p ← index position k;
  c ← index (Center i) k;
  s ← index (Size i) k;
  Ret ((p - float64_of_int c) / s + 0.5)%float.

(** NormalizePoint normalizes the coordinates of a point using the
    interaction box.  The result is Go's pair [([]float64, error)]. *)
Definition NormalizePoint (i : InteractionBox) (position : slice float) (clamp : bool)
  : outcome (slice float * option error) :=
  if is_nil (Center i) || (len (Center i) <? 3) then
    Ret (None, Some (errors_New "Center isn't set or doesn't have enough values"))
  else if is_nil (Size i) || (len (Size i) <? 3) then
    Ret (None, Some (errors_New "Size isn't set or doesn't have enough values"))
  else if is_nil position || (len position <? 3) then
    Ret (None, Some (errors_New "postion isn't set or doesn't have enough values"))
  else
    let vec : slice float := Some [0%float; 0%float; 0%float] in
    v0 ← affine i position 0; vec ← store vec 0 v0;
    v1 ← affine i position 1; vec ← store vec 1 v1;
    v2 ← affine i position 2; vec ← store vec 2 v2;

    v0 ← affine i position 0; vec ← store vec 0 v0;
    v1 ← affine i position 1; vec ← store vec 1 v1;
    v2 ← affine i position 2; vec ← store vec 2 v2;

    vec ← (if clamp then
              x0 ← index vec 0; vec ← store vec 0 (clamp01 x0);
              x1 ← index vec 1; vec ← store vec 1 (clamp01 x1);
              x2 ← index vec 2; vec ← store vec 2 (clamp01 x2);
              Ret vec
            else Ret vec);
    Ret (vec, None).

(** The interaction box and the two rows of [TestNormalizePoint]. *)
Definition test_box : InteractionBox :=
  mkInteractionBox (Some [1; 1; 1]) (Some [1%float; 1%float; 1%float]).

(** ** The transport

    [golang.org/x/net/websocket] and [encoding/json] are outside the
    repository; what the client relies on is modelled here.  A [*websocket.Conn]
    is an index into the table of connections of the [World]. *)

(** One inbound payload, given by what [json.Unmarshal(payload, data)] does
    with it: the content it leaves in [*data], as a function of the content
    before (keys absent from the payload keep their value), and the error it
    returns.  A read failure of the transport is a message that leaves
    [*data] alone and has an error. *)
Record Message : Type := mkMessage {
  msg_decode : Frame -> Frame;
  msg_err : option error
}.

Definition well_formed (m : Message) : Prop := msg_err m = None.

Definition malformed (m : Message) : Prop := msg_err m <> None.

(** A payload with every key of a frame: decoding it overwrites all of [*data]. *)
Definition full_message (f : Frame) : Message := mkMessage (fun _ => f) None.

(** A payload that is not JSON: [*data] stays as it is. *)
Definition garbage : Message :=
  mkMessage (fun d => d) (Some "invalid character"%string).

(** A JSON object with boolean values, as written by [JSON.Send]. *)
Definition json_object := list (string * bool).

Record Conn : Type := mkConn {
  conn_closed : bool;                  (* Close has run on this connection *)
  conn_inbox : list Message;           (* payloads arrived and not yet read *)
  conn_outbox : list json_object;      (* payloads written, oldest first *)
  conn_faults : list (option error)    (* what the network does to the next
                                          writes: [None] lets one through *)
}.

#[global] Instance Conn_inhabited : Inhabited Conn := populate (mkConn true [] [] []).
#[global] Instance Frame_inhabited : Inhabited Frame := populate Frame_zero.

Definition use_of_closed : error := "use of closed network connection"%string.

(** [Close] of a connection: sends the close frame and closes the socket; on a
    connection already closed the write fails and the error is returned. *)
Definition Conn_Close (conn : Conn) : Conn * option error :=
  if conn_closed conn then (conn, Some use_of_closed)
  else (mkConn true (conn_inbox conn) (conn_outbox conn) (conn_faults conn), None).

(** [websocket.JSON.Send(ws, v)] on the connection object. *)
Definition Conn_Send (conn : Conn) (v : json_object) : Conn * option error :=
  if conn_closed conn then (conn, Some use_of_closed)
  else
    match conn_faults conn with
    | Some e :: faults =>
        (mkConn false (conn_inbox conn) (conn_outbox conn) faults, Some e)
    | None :: faults =>
        (mkConn false (conn_inbox conn) (conn_outbox conn ++ [v]) faults, None)
    | [] =>
        (mkConn false (conn_inbox conn) (conn_outbox conn ++ [v]) [], None)
    end.

(** [websocket.JSON.Receive(ws, data)] on the connection object and the
    content of [*data].  [None]: the call blocks, the connection is open and
    nothing has arrived. *)
Definition Conn_Receive (conn : Conn) (d : Frame) : option (Conn * Frame * option error) :=
  if conn_closed conn then Some (conn, d, Some use_of_closed)
  else
    match conn_inbox conn with
    | [] => None
    | m :: inbox =>
        Some (mkConn false inbox (conn_outbox conn) (conn_faults conn),
              msg_decode m d, msg_err m)
    end.

(** ** The world a client runs in *)

Inductive chan : Type := ChanOpen | ChanClosed.

(** What dialling [defaultLeapWebSocketAddress] meets: nothing that accepts,
    or a service with the payloads it will send and the faults the network
    will put on the client's writes. *)
Inductive Endpoint : Type :=
| Refuses (e : error)
| Accepts (inbox : list Message) (faults : list (option error)).

(** A frame handler of the caller, by name: its calls are recorded in the
    world. *)
Definition Handler := nat.

(** Client represents a connection to a Leap Motion WebSocket server. *)
Record Client : Type := mkClient {
  ws : option nat;                (* the connection, [None] is nil *)
  frameHandler : option Handler;  (* the handler, [None] is nil *)
  done : nat                      (* chan struct{} *)
}.

(** A goroutine running [processData]. *)
Inductive Goroutine : Type :=
| Starting (c : Client)               (* [go c.processData()] issued *)
| Looping (c : Client) (data : nat)   (* inside [for], [data] allocated *)
| Panicked.                           (* ended by a panic, deferred calls run *)

(** One call of a frame handler: which handler, the [*Frame] it was passed
    and the content of that frame during the call. *)
Record Call : Type := mkCall {
  call_handler : Handler;
  call_ptr : nat;
  call_frame : Frame
}.

Record World : Type := mkWorld {
  endpoint : Endpoint;
  conns : list Conn;             (* the connection objects *)
  frames : list Frame;           (* the Frame objects, a [*Frame] is an index *)
  chans : list chan;             (* the channels *)
  goroutines : list Goroutine;
  calls : list Call              (* handler calls so far, oldest first *)
}.

(** A process that has not connected yet. *)
Definition boot (e : Endpoint) : World := mkWorld e [] [] [] [] [].

(** [websocket.Dial] to [defaultLeapWebSocketAddress]. *)
Definition websocket_Dial (w : World) : World * (error + nat) :=
  match endpoint w with
  | Refuses e => (w, inl e)
  | Accepts inbox faults =>
      (mkWorld (endpoint w) (conns w ++ [mkConn false inbox [] faults])
               (frames w) (chans w) (goroutines w) (calls w),
       inr (length (conns w)))
  end.

(** [make(chan struct{})] *)
Definition make_chan (w : World) : World * nat :=
  (mkWorld (endpoint w) (conns w) (frames w) (chans w ++ [ChanOpen])
           (goroutines w) (calls w),
   length (chans w)).

(** [close(ch)] *)
Definition close_chan (ch : nat) (w : World) : World :=
  mkWorld (endpoint w) (conns w) (frames w) (<[ch:=ChanClosed]> (chans w))
          (goroutines w) (calls w).

(** [&Frame{}] *)
Definition new_Frame (w : World) : World * nat :=
  (mkWorld (endpoint w) (conns w) (frames w ++ [Frame_zero]) (chans w)
           (goroutines w) (calls w),
   length (frames w)).

(** [websocket.JSON.Send(ws, v)] through the pointer. *)
Definition JSON_Send (ws : nat) (v : json_object) (w : World) : World * option error :=
  let (conn, err) := Conn_Send (conns w !!! ws) v in
  (mkWorld (endpoint w) (<[ws:=conn]> (conns w)) (frames w) (chans w)
           (goroutines w) (calls w),
   err).

(** [go f()] *)
Definition go (g : Goroutine) (w : World) : World :=
  mkWorld (endpoint w) (conns w) (frames w) (chans w) (goroutines w ++ [g]) (calls w).

(** [c.frameHandler(data)]: the handler reads the frame it is passed. *)
Definition call_frameHandler (h : Handler) (data : nat) (w : World) : World :=
  mkWorld (endpoint w) (conns w) (frames w) (chans w) (goroutines w)
          (calls w ++ [mkCall h data (frames w !!! data)]).

(** ** The client *)

(** Connect to WebSocket and pass a frameHandler that is called whenever
    the WebSocket sends frame data. *)
Definition Connect (frameHandler : option Handler) (w : World)
  : World * (option Client * option error) :=
  match websocket_Dial w with
  | (w, inl err) => (w, (None, Some err))
  | (w, inr conn) =>
      let (w, done) := make_chan w in
      let c := mkClient (Some conn) frameHandler done in
      (* Enable gestures recognition from leap sensor *)
      match JSON_Send conn [("enableGestures"%string, true)] w with
      | (w, Some err) => (w, (None, Some err))
      | (w, None) =>
          (* Enable our application to run in the background *)
          match JSON_Send conn [("backgroundMessage"%string, true)] w with
          | (w, Some err) => (w, (None, Some err))
          | (w, None) =>
              let w := go (Starting c) w in
              (w, (Some c, None))
          end
      end
  end.

(** One step of a goroutine in [processData]: its first statements, or one
    turn of the [for].  The loop body has no [break] and no [return]: both
    the [continue] after a failed receive and the end of the body lead to
    the next turn.  The deferred [close(c.done)] runs when the function
    ends, which in this body only a panic brings about (a nil [c.ws]). *)
Definition processData_step (g : Goroutine) (w : World) : World * Goroutine :=
  match g with
  | Starting c =>
      (* defer close(c.done); data := &Frame{} *)
      let (w, data) := new_Frame w in
      (w, Looping c data)
  | Looping c data =>
      match ws c with
      | None => (close_chan (done c) w, Panicked)
      | Some k =>
          match Conn_Receive (conns w !!! k) (frames w !!! data) with
          | None => (w, Looping c data)
          | Some (conn, d, err) =>
              let w := mkWorld (endpoint w) (<[k:=conn]> (conns w))
                               (<[data:=d]> (frames w)) (chans w)
                               (goroutines w) (calls w) in
              match err with
              | Some _ => (w, Looping c data)    (* continue *)
              | None =>
                  match frameHandler c with
                  | Some h => (call_frameHandler h data w, Looping c data)
                  | None => (w, Looping c data)
                  end
              end
          end
      end
  | Panicked => (w, Panicked)
  end.

(** Close the websocket and stop processData for loop. *)
Definition Close (c : Client) (w : World) : World * option error :=
  match ws c with
  | None => (w, None)
  | Some k =>
      let (conn, err) := Conn_Close (conns w !!! k) in
      (mkWorld (endpoint w) (<[k:=conn]> (conns w)) (frames w) (chans w)
               (goroutines w) (calls w),
       err)
  end.

(** Done returns a read only channel to know when the client is closed. *)
Definition Done (c : Client) : nat := done c.

(** ** Schedules *)

(** What can happen next in a running process: goroutine [g] takes a step,
    the caller calls [c.Close()], or a payload arrives on connection [k]. *)
Inductive action : Type :=
| Step (g : nat)
| CallClose (c : Client)
| Arrive (k : nat) (m : Message).

Definition arrive (k : nat) (m : Message) (w : World) : World :=
  match conns w !! k with
  | Some conn =>
      mkWorld (endpoint w)
              (<[k:=mkConn (conn_closed conn) (conn_inbox conn ++ [m])
                           (conn_outbox conn) (conn_faults conn)]> (conns w))
              (frames w) (chans w) (goroutines w) (calls w)
  | None => w
  end.

Definition act (a : action) (w : World) : World :=
  match a with
  | Step g =>
      match goroutines w !! g with
      | Some st =>
          let (w, st) := processData_step st w in
          mkWorld (endpoint w) (conns w) (frames w) (chans w)
                  (<[g:=st]> (goroutines w)) (calls w)
      | None => w
      end
  | CallClose c => fst (Close c w)
  | Arrive k m => arrive k m w
  end.

Fixpoint run (sched : list action) (w : World) : World :=
  match sched with
  | [] => w
  | a :: sched => run sched (act a w)
  end.

(** ** Vocabulary of the properties *)

(** [(p - float64(c)) / s + 0.5], the value the source computes per axis. *)
Definition affine_value (p : float) (c : Z) (s : float) : float :=
  ((p - float64_of_int c) / s + 0.5)%float.

(** [v] lies in the closed interval from 0 to 1 (a NaN does not). *)
Definition in_unit_interval (v : float) : Prop :=
  (0 <=? v)%float = true /\ (v <=? 1)%float = true.

(** How a clamped axis [o] relates to its unclamped value [v]. *)
Definition clamped_from (v o : float) : Prop :=
  ((v <? 0)%float = true -> o = 0%float) /\
  ((1 <? v)%float = true -> o = 1%float) /\
  (in_unit_interval v ->
     (o =? v)%float = true /\ (v <> neg_zero -> o = v)) /\
  (is_nan v = false -> in_unit_interval o) /\
  (is_nan v = true -> o = nan).

(** The three validation errors. *)
Definition err_Center : error :=
  errors_New "Center isn't set or doesn't have enough values".
Definition err_Size : error :=
  errors_New "Size isn't set or doesn't have enough values".
Definition err_position : error :=
  errors_New "postion isn't set or doesn't have enough values".

(** The two configuration payloads of [Connect], in the order sent. *)
Definition handshake : list json_object :=
  [[("enableGestures"%string, true)]; [("backgroundMessage"%string, true)]].

(** The world of a process with one connection, one channel and one
    goroutine. *)
Definition single (e : Endpoint) (conn : Conn) (fs : list Frame)
           (g : Goroutine) (cl : list Call) : World :=
  mkWorld e [conn] fs [ChanOpen] [g] cl.

(** The client [Connect] returns in a fresh process. *)
Definition first_client (h : option Handler) : Client :=
  mkClient (Some 0%nat) h 0%nat.




(** The content of [*data] after the payloads [msgs] were decoded into it,
    one after the other. *)
Definition decoded (d : Frame) (msgs : list Message) : Frame :=
  fold_left (fun d m => msg_decode m d) msgs d.

(** The handler calls the payloads [msgs] lead to, in the words of the
    specification: every well-formed one, in arrival order, a malformed one
    skipped. *)
Fixpoint deliveries (h : Handler) (d : Frame) (msgs : list Message) : list Call :=
  match msgs with
  | [] => []
  | m :: msgs =>
      match msg_err m with
      | None => mkCall h 0%nat (msg_decode m d) :: deliveries h (msg_decode m d) msgs
      | Some _ => deliveries h (msg_decode m d) msgs
      end
  end.

(** Call [call] delivered payload [m] to handler [h]: the frame passed is
    what decoding [m] left in the receive buffer. *)
Definition delivers (h : Handler) (m : Message) (call : Call) : Prop :=
  call_handler call = h /\ exists d, call_frame call = msg_decode m d.


(** A frame with the given id and nothing else. *)
Definition frame_with_id (n : float) : Frame :=
  mkFrame 0%float n None 0%float None 0 None None (mkInteractionBox None None) None.

(** A float64 that is a number: neither NaN nor an infinity. *)
Definition is_number (v : float) : Prop :=
  math_IsNaN v = false /\ math_IsInf v 0 = false.

(** An extent one can divide by: not NaN and not a zero. *)
Definition usable_extent (s : float) : Prop :=
  math_IsNaN s = false /\ (s =? 0)%float = false.

(** Neither of the two writes of [Connect] meets a fault. *)
Definition sends_pass (faults : list (option error)) : bool :=
  match faults with
  | Some _ :: _ => false
  | None :: Some _ :: _ => false
  | _ => true
  end.

Definition is_well_formed (m : Message) : bool :=
  match msg_err m with
  | None => true
  | Some _ => false
  end.

(** The payloads that arrive on connection [k] with an action, and during
    a schedule. *)
Definition arrival (k : nat) (a : action) : list Message :=
  match a with
  | Arrive k' m => if Nat.eqb k' k then [m] else []
  | _ => []
  end.

Definition arrivals (k : nat) (sched : list action) : list Message :=
  flat_map (arrival k) sched.

(** The action is a [Close] on connection [k]. *)
Definition closes (k : nat) (a : action) : bool :=
  match a with
  | CallClose c =>
      match ws c with
      | Some k' => Nat.eqb k' k
      | None => false
      end
  | _ => false
  end.

(** The handler calls after the payloads [consumed] were received. *)
Definition handler_calls (h : option Handler) (consumed : list Message) : list Call :=
  match h with
  | Some h => deliveries h Frame_zero consumed
  | None => []
  end.

(** The worlds of a fresh process with one successful [Connect], with
    their history: the payloads that arrived so far and whether [Close] was
    called on the connection. *)
Inductive following (h : option Handler) (arrived : list Message) (closed : bool)
  : World -> Prop :=
| following_start (e : Endpoint) (faults : list (option error)) :
    following h arrived closed
      (single e (mkConn closed arrived handshake faults) []
              (Starting (first_client h)) [])
| following_loop (e : Endpoint) (faults : list (option error))
                 (consumed unread : list Message) :
    arrived = consumed ++ unread ->
    following h arrived closed
      (single e (mkConn closed unread handshake faults)
              [decoded Frame_zero consumed]
              (Looping (first_client h) 0%nat) (handler_calls h consumed)).

(** The world after [Connect] dialled and made its channel: the new
    connection, with what was written on it and the faults left, and the new
    channel are added at the end. *)
Definition dialled (w : World) (inbox : list Message) (out : list json_object)
           (faults : list (option error)) : World :=
  mkWorld (endpoint w) (conns w ++ [mkConn false inbox out faults])
          (frames w) (chans w ++ [ChanOpen]) (goroutines w) (calls w).

(** The client [Connect] makes in world [w]. *)
Definition next_client (h : option Handler) (w : World) : Client :=
  mkClient (Some (length (conns w))) h (length (chans w)).

(** * Properties *)

(** ** binary64 comparisons *)

Section Float64.

Local Open Scope float_scope.

Lemma SFcompare_antisym (x y : spec_float) :
  SFcompare y x = option_map CompOpp (SFcompare x y).
Proof.
  destruct x as [sx|sx| |sx mx ex], y as [sy|sy| |sy my ey]; simpl;
    try reflexivity;
    try (destruct sx; reflexivity); try (destruct sy; reflexivity);
    try (destruct sx, sy; reflexivity).
  destruct sx, sy; simpl; try reflexivity;
    rewrite (Z.compare_antisym ex ey);
    destruct (ex ?= ey)%Z; simpl; try reflexivity;
    change (Pos.compare_cont Eq my mx) with (my ?= mx)%positive;
    change (Pos.compare_cont Eq mx my) with (mx ?= my)%positive;
    rewrite (Pos.compare_antisym mx my); reflexivity.
Qed.

Lemma SFcompare_finite_Eq (x : spec_float) (s : bool) (m : positive) (e : Z) :
  SFcompare x (S754_finite s m e) = Some Eq -> x = S754_finite s m e.
Proof.
  destruct x as [sx|sx| |sx mx ex]; simpl; try discriminate.
  - destruct s; discriminate.
  - destruct sx; discriminate.
  - destruct sx, s; try discriminate;
      destruct (ex ?= e)%Z eqn:He; try discriminate;
      intros Hm; apply Z.compare_eq in He; subst ex;
      assert ((mx ?= m)%positive = Eq) as Hc
        by (unfold Pos.compare; injection Hm as Hm;
            destruct (Pos.compare_cont Eq mx m); simpl in Hm; congruence);
      apply Pos.compare_eq in Hc; subst mx; reflexivity.
Qed.

Lemma ltb_antisym (x y : float) : (x <? y) = true -> (y <? x) = false.
Proof.
  rewrite !FloatAxioms.ltb_spec. unfold SFltb.
  rewrite (SFcompare_antisym (Prim2SF x) (Prim2SF y)).
  destruct (SFcompare (Prim2SF x) (Prim2SF y)) as [[]|]; simpl; congruence.
Qed.

Lemma ltb_leb (x y : float) : (x <? y) = true -> (x <=? y) = true.
Proof.
  rewrite FloatAxioms.ltb_spec, FloatAxioms.leb_spec. unfold SFltb, SFleb.
  destruct (SFcompare (Prim2SF x) (Prim2SF y)) as [[]|]; simpl; congruence.
Qed.

Lemma leb_not_ltb_Eq (x y : float) :
  (x <=? y) = true -> (x <? y) = false ->
  SFcompare (Prim2SF x) (Prim2SF y) = Some Eq.
Proof.
  rewrite FloatAxioms.ltb_spec, FloatAxioms.leb_spec. unfold SFltb, SFleb.
  destruct (SFcompare (Prim2SF x) (Prim2SF y)) as [[]|]; simpl; congruence.
Qed.

Lemma is_nan_spec (v : float) :
  is_nan v = match Prim2SF v with S754_nan => true | _ => false end.
Proof.
  unfold is_nan. rewrite FloatAxioms.eqb_spec. unfold SFeqb, SFcompare.
  destruct (Prim2SF v) as [[]|[]| |[] m e]; try reflexivity.
  all: rewrite Z.compare_refl, Pos.compare_cont_refl; reflexivity.
Qed.

Lemma ltb_not_nan_l (x y : float) : (x <? y) = true -> is_nan x = false.
Proof.
  rewrite is_nan_spec, FloatAxioms.ltb_spec. unfold SFltb.
  destruct (Prim2SF x); simpl; congruence.
Qed.

Lemma ltb_not_nan_r (x y : float) : (x <? y) = true -> is_nan y = false.
Proof.
  rewrite is_nan_spec, FloatAxioms.ltb_spec. unfold SFltb.
  destruct (Prim2SF x), (Prim2SF y); simpl; congruence.
Qed.

Lemma leb_not_nan_l (x y : float) : (x <=? y) = true -> is_nan x = false.
Proof.
  rewrite is_nan_spec, FloatAxioms.leb_spec. unfold SFleb.
  destruct (Prim2SF x); simpl; congruence.
Qed.

(** The shapes of a binary64 value: the five special values, or a finite
    non-zero number with its sign, mantissa and exponent. *)
Lemma float_cases (v : float) :
  v = 0 \/ v = neg_zero \/ v = infinity \/ v = neg_infinity \/ v = nan \/
  exists s m e, Prim2SF v = S754_finite s m e.
Proof.
  destruct (Prim2SF v) as [s|s| |s m e] eqn:Hv.
  - destruct s; [right; left | left];
      rewrite <- (SF2Prim_Prim2SF v), Hv; reflexivity.
  - destruct s; [right; right; right; left | right; right; left];
      rewrite <- (SF2Prim_Prim2SF v), Hv; reflexivity.
  - do 4 right; left. rewrite <- (SF2Prim_Prim2SF v), Hv; reflexivity.
  - do 5 right. eauto.
Qed.

Lemma finite_tests (v : float) (s : bool) (m : positive) (e : Z) :
  Prim2SF v = S754_finite s m e ->
  (v =? infinity) = false /\ (v =? neg_infinity) = false /\
  (v =? v) = true /\ (v =? 0) = false /\ (0 <? v) = negb s.
Proof.
  intros Hv.
  rewrite !FloatAxioms.eqb_spec, FloatAxioms.ltb_spec, Hv.
  change (Prim2SF infinity) with (S754_infinity false).
  change (Prim2SF neg_infinity) with (S754_infinity true).
  change (Prim2SF 0) with (S754_zero false).
  unfold SFeqb, SFltb, SFcompare.
  rewrite Z.compare_refl, Pos.compare_cont_refl.
  destruct s; repeat split; reflexivity.
Qed.

(** The clamping expression, case by case. *)
Lemma clamp01_eq (v : float) :
  clamp01 v =
  if is_nan v then nan
  else if 0 <? v then (if v <? 1 then v else 1)
  else 0.
Proof.
  destruct (float_cases v) as [->|[->|[->|[->|[->|(s & m & e & Hv)]]]]];
    try reflexivity.
  destruct (finite_tests v s m e Hv) as (Hinf & Hninf & Hrefl & Hz & Hpos).
  rewrite is_nan_spec, Hv, Hpos.
  unfold clamp01, math_Max, math_IsInf, math_IsNaN, math_Inf, math_NaN.
  rewrite Hinf, Hninf, Hrefl, Hz, Hpos.
  change ((0 <=? 1)%Z) with true. change ((1 <=? 0)%Z) with false.
  change (0 =? infinity) with false. change (0 =? neg_infinity) with false.
  change (0 =? 0) with true.
  simpl andb; simpl orb; simpl negb.
  destruct s; simpl negb; cbv iota.
  - reflexivity.
  - unfold math_Min, math_IsInf, math_IsNaN, math_Inf, math_NaN.
    rewrite Hinf, Hninf, Hrefl, Hz.
    change ((0 <=? -1)%Z) with false. change ((-1 <=? 0)%Z) with true.
    change (1 =? infinity) with false. change (1 =? neg_infinity) with false.
    change (1 =? 1) with true.
    reflexivity.
Qed.

Lemma clamp01_nan (v : float) : is_nan v = true -> clamp01 v = nan.
Proof. intros H. rewrite clamp01_eq, H. reflexivity. Qed.

Lemma clamp01_below (v : float) : (v <? 0) = true -> clamp01 v = 0.
Proof.
  intros H. rewrite clamp01_eq, (ltb_not_nan_l _ _ H), (ltb_antisym _ _ H).
  reflexivity.
Qed.

Lemma one_ltb_pos (v : float) : (1 <? v) = true -> (0 <? v) = true.
Proof.
  rewrite !FloatAxioms.ltb_spec.
  change (Prim2SF 1) with (S754_finite false 4503599627370496 (-52)).
  change (Prim2SF 0) with (S754_zero false).
  unfold SFltb.
  destruct (Prim2SF v) as [[]|[]| |[] m e]; cbn [SFcompare];
    try discriminate; reflexivity.
Qed.

Lemma clamp01_above (v : float) : (1 <? v) = true -> clamp01 v = 1.
Proof.
  intros H.
  rewrite clamp01_eq, (ltb_not_nan_r _ _ H), (one_ltb_pos _ H), (ltb_antisym _ _ H).
  reflexivity.
Qed.

Lemma Eq_one (v : float) : SFcompare (Prim2SF v) (Prim2SF 1) = Some Eq -> v = 1.
Proof.
  change (Prim2SF 1) with (S754_finite false 4503599627370496 (-52)).
  intros H. apply SFcompare_finite_Eq in H.
  rewrite <- (SF2Prim_Prim2SF v), H. reflexivity.
Qed.

Lemma Eq_zero (v : float) :
  SFcompare (Prim2SF 0) (Prim2SF v) = Some Eq -> v = 0 \/ v = neg_zero.
Proof.
  change (Prim2SF 0) with (S754_zero false).
  destruct (float_cases v) as [->|[->|[->|[->|[->|(s & m & e & Hv)]]]]];
    auto; try discriminate.
  rewrite Hv. simpl. destruct s; discriminate.
Qed.

(** Inside the range the value passes through: equal as Go's [==] has it,
    and the very same float unless it is the negative zero (which leaves as
    +0). *)
Lemma clamp01_inside (v : float) :
  (0 <=? v) = true -> (v <=? 1) = true ->
  (clamp01 v =? v) = true /\ (v <> neg_zero -> clamp01 v = v).
Proof.
  intros H0 H1. rewrite clamp01_eq, (leb_not_nan_l _ _ H1).
  destruct (0 <? v) eqn:Hpos.
  - destruct (v <? 1) eqn:Hlt.
    + split; [|reflexivity].
      apply leb_not_nan_l in H1. unfold is_nan in H1.
      destruct (v =? v); [reflexivity | discriminate].
    + rewrite (Eq_one v (leb_not_ltb_Eq _ _ H1 Hlt)). split; reflexivity.
  - destruct (Eq_zero v (leb_not_ltb_Eq _ _ H0 Hpos)) as [-> | ->].
    + split; reflexivity.
    + split; [reflexivity | congruence].
Qed.

Lemma clamp01_range (v : float) :
  is_nan v = false -> (0 <=? clamp01 v) = true /\ (clamp01 v <=? 1) = true.
Proof.
  intros H. rewrite clamp01_eq, H.
  destruct (0 <? v) eqn:Hpos; [|split; reflexivity].
  destruct (v <? 1) eqn:Hlt; [|split; reflexivity].
  split; apply ltb_leb; assumption.
Qed.

Lemma clamp01_idem (v : float) : clamp01 (clamp01 v) = clamp01 v.
Proof.
  rewrite (clamp01_eq v).
  destruct (is_nan v) eqn:Hnan; [reflexivity|].
  destruct (0 <? v) eqn:Hpos; [|reflexivity].
  destruct (v <? 1) eqn:Hlt; [|reflexivity].
  rewrite clamp01_eq, Hnan, Hpos, Hlt. reflexivity.
Qed.

End Float64.

(** ** NormalizePoint on inputs that pass validation *)

Lemma len_lt3_false {A : Type} (a b c : A) (t : list A) :
  (len (Some (a :: b :: c :: t)) <? 3) = false.
Proof. apply Z.ltb_ge. unfold len. simpl length. lia. Qed.

Lemma len_lt3_true {A : Type} (s : slice A) :
  len s < 3 -> is_nil s || (len s <? 3) = true.
Proof. intros H. apply orb_true_iff. right. apply Z.ltb_lt. exact H. Qed.

Lemma len_ge3_inv {A : Type} (s : slice A) :
  3 <= len s -> exists a b c t, s = Some (a :: b :: c :: t).
Proof.
  destruct s as [[|a [|b [|c t]]]|]; simpl; try lia.
  intros _. eauto.
Qed.

Lemma NormalizePoint_eq (cx cy cz : Z) (ct : list Z) (sx sy sz : float)
      (st : list float) (px py pz : float) (pt : list float) (clamp : bool) :
  NormalizePoint (mkInteractionBox (Some (cx :: cy :: cz :: ct))
                                   (Some (sx :: sy :: sz :: st)))
                 (Some (px :: py :: pz :: pt)) clamp
  = Ret (Some (if clamp
               then [clamp01 (affine_value px cx sx);
                     clamp01 (affine_value py cy sy);
                     clamp01 (affine_value pz cz sz)]
               else [affine_value px cx sx; affine_value py cy sy;
                     affine_value pz cz sz]), None).
Proof.
  unfold NormalizePoint.
  cbn [Center Size is_nil orb].
  rewrite !len_lt3_false.
  destruct clamp; reflexivity.
Qed.

(** ** The claims on NormalizePoint *)

(** C2. For every interaction box with center (cx,cy,cz) and size
    (sx,sy,sz), and every point (px,py,pz), NormalizePoint without clamping
    succeeds and its result is, on each axis k,
    (p[k] - center[k]) / size[k] + 0.5, computed in float64 with the integer
    center converted to float64. *)
Theorem NormalizePoint_affine (cx cy cz : Z) (sx sy sz px py pz : float) :
  NormalizePoint (mkInteractionBox (Some [cx; cy; cz]) (Some [sx; sy; sz]))
                 (Some [px; py; pz]) false
  = Ret (Some [((px - float64_of_int cx) / sx + 0.5)%float;
               ((py - float64_of_int cy) / sy + 0.5)%float;
               ((pz - float64_of_int cz) / sz + 0.5)%float], None).
Proof. apply (NormalizePoint_eq cx cy cz [] sx sy sz [] px py pz [] false). Qed.

(** C3, as stated, fails: a length other than 3 is not always refused.  A
    point of four components is accepted and its first three are used. *)
Lemma NormalizePoint_accepts_longer :
  ~ (forall (i : InteractionBox) (position : slice float) (clamp : bool),
        len (Center i) <> 3 \/ len (Size i) <> 3 \/ len position <> 3 ->
        exists e, NormalizePoint i position clamp = Ret (None, Some e)).
Proof.
  intros H.
  destruct (H test_box (Some [1; 1; 1; 1]%float) false) as [e He].
  - right; right. simpl. lia.
  - vm_compute in He. discriminate He.
Qed.

(** C3, amended.  NormalizePoint checks, in this order, that center, size
    and point have at least 3 components (a nil slice has none); the first
    that has fewer makes it return no result and that field's own error,
    the three errors being different.  When all three have at least 3
    components it returns a result of 3 components and no error. *)
Theorem NormalizePoint_validation (i : InteractionBox) (position : slice float)
        (clamp : bool) :
  (len (Center i) < 3 ->
     NormalizePoint i position clamp = Ret (None, Some err_Center)) /\
  (3 <= len (Center i) -> len (Size i) < 3 ->
     NormalizePoint i position clamp = Ret (None, Some err_Size)) /\
  (3 <= len (Center i) -> 3 <= len (Size i) -> len position < 3 ->
     NormalizePoint i position clamp = Ret (None, Some err_position)) /\
  (3 <= len (Center i) -> 3 <= len (Size i) -> 3 <= len position ->
     exists vec, NormalizePoint i position clamp = Ret (Some vec, None)
                 /\ length vec = 3%nat) /\
  err_Center <> err_Size /\ err_Center <> err_position /\
  err_Size <> err_position.
Proof.
  destruct i as [center size]. cbn [Center Size].
  repeat split; try discriminate.
  - intros Hc. unfold NormalizePoint. cbn [Center Size].
    rewrite (len_lt3_true _ Hc). reflexivity.
  - intros Hc Hs. apply len_ge3_inv in Hc as (a & b & c & t & ->).
    unfold NormalizePoint. cbn [Center Size is_nil orb].
    rewrite len_lt3_false, (len_lt3_true _ Hs). reflexivity.
  - intros Hc Hs Hp.
    apply len_ge3_inv in Hc as (a & b & c & t & ->).
    apply len_ge3_inv in Hs as (a' & b' & c' & t' & ->).
    unfold NormalizePoint. cbn [Center Size is_nil orb].
    rewrite !len_lt3_false, (len_lt3_true _ Hp). reflexivity.
  - intros Hc Hs Hp.
    apply len_ge3_inv in Hc as (a & b & c & t & ->).
    apply len_ge3_inv in Hs as (a' & b' & c' & t' & ->).
    apply len_ge3_inv in Hp as (a'' & b'' & c'' & t'' & ->).
    rewrite NormalizePoint_eq. destruct clamp; eexists; split; reflexivity.
Qed.

Lemma NormalizePoint_validation_witness :
  NormalizePoint (mkInteractionBox (Some [1; 1]) None) None true
    = Ret (None, Some err_Center) /\
  NormalizePoint (mkInteractionBox (Some [1; 1; 1]) (Some [1%float])) None true
    = Ret (None, Some err_Size) /\
  NormalizePoint test_box (Some [1%float; 1%float]) true
    = Ret (None, Some err_position) /\
  exists vec,
    NormalizePoint test_box (Some [1; 1; 1; 1]%float) true = Ret (Some vec, None)
    /\ length vec = 3%nat.
Proof.
  split; [|split; [|split]].
  - apply (NormalizePoint_validation
             (mkInteractionBox (Some [1; 1]) None) None true).
    simpl; lia.
  - apply (NormalizePoint_validation
             (mkInteractionBox (Some [1; 1; 1]) (Some [1%float])) None true);
      simpl; lia.
  - apply (NormalizePoint_validation test_box (Some [1%float; 1%float]) true);
      simpl; lia.
  - apply (NormalizePoint_validation test_box (Some [1; 1; 1; 1]%float) true);
      simpl; lia.
Defined.

Lemma clamp01_clamped_from (v : float) : clamped_from v (clamp01 v).
Proof.
  unfold clamped_from, in_unit_interval.
  split; [apply clamp01_below|].
  split; [apply clamp01_above|].
  split; [intros [H0 H1]; apply clamp01_inside; assumption|].
  split; [apply clamp01_range | apply clamp01_nan].
Qed.

(** C4, as stated, fails: with clamp set, an axis whose unclamped value is
    NaN is returned as NaN, which is not in [0, 1].  Here the x coordinate
    of the point is NaN, in the valid volume of the test. *)
Lemma NormalizePoint_clamp_keeps_nan :
  NormalizePoint test_box (Some [nan; 1%float; 1%float]) true
    = Ret (Some [nan; 0.5%float; 0.5%float], None)
  /\ ~ in_unit_interval nan.
Proof.
  split.
  - vm_compute. reflexivity.
  - unfold in_unit_interval. vm_compute. intros [H _]. discriminate H.
Qed.

(** C4, amended.  For every volume and point with at least 3 components,
    NormalizePoint with clamp set returns, per axis, the clamped unclamped
    value: 0 when that value is below 0, 1 when it is above 1, the value
    itself when it is in [0, 1] (equal under ==, exact 0 and 1 included;
    the same float but for a negative zero, returned as +0); the output is
    in [0, 1] whenever the unclamped value is not NaN, and NaN when it is.
    With clamp unset the output is the unclamped value. *)
Theorem NormalizePoint_clamp (cx cy cz : Z) (ct : list Z) (sx sy sz : float)
        (st : list float) (px py pz : float) (pt : list float) :
  let box := mkInteractionBox (Some (cx :: cy :: cz :: ct))
                              (Some (sx :: sy :: sz :: st)) in
  let position := Some (px :: py :: pz :: pt) in
  exists raw out,
    raw = [affine_value px cx sx; affine_value py cy sy; affine_value pz cz sz]
    /\ NormalizePoint box position false = Ret (Some raw, None)
    /\ NormalizePoint box position true = Ret (Some out, None)
    /\ Forall2 clamped_from raw out.
Proof.
  intros box position. subst box position.
  eexists _, _. split; [reflexivity|].
  rewrite !NormalizePoint_eq.
  split; [reflexivity|]. split; [reflexivity|].
  do 3 (constructor; [apply clamp01_clamped_from|]).
  constructor.
Qed.

Lemma NormalizePoint_clamp_witness :
  exists raw out,
    raw = [affine_value 0.355 1 1; affine_value 0.532342 1 1;
           affine_value 3.25 1 1]%float
    /\ NormalizePoint test_box (Some [0.355; 0.532342; 3.25]%float) true
       = Ret (Some out, None)
    /\ out = [0; 0.03234199999999998; 1]%float.
Proof.
  destruct (NormalizePoint_clamp 1 1 1 [] 1 1 1 [] 0.355 0.532342 3.25 [])
    as (raw & out & Hraw & _ & Hout & Hrel).
  exists raw, out. split; [exact Hraw|]. split; [exact Hout|].
  subst raw.
  inversion Hrel as [|v0 o0 r0 t0 H0 Hrel0]; subst.
  inversion Hrel0 as [|v1 o1 r1 t1 H1 Hrel1]; subst.
  inversion Hrel1 as [|v2 o2 r2 t2 H2 Hrel2]; subst.
  inversion Hrel2; subst.
  destruct H0 as (Hb0 & _).
  destruct H1 as (_ & _ & Hi1 & _).
  destruct H2 as (_ & Ha2 & _).
  rewrite (Hb0 eq_refl), (Ha2 eq_refl).
  destruct (Hi1 (conj eq_refl eq_refl)) as [_ Hsame].
  rewrite Hsame.
  - vm_compute. reflexivity.
  - vm_compute. intros E.
    assert (F : (0.03234199999999998 =? neg_zero)%float = true)
      by (rewrite E; reflexivity).
    vm_compute in F. discriminate F.
Defined.

(** C8, as stated, fails on the first row: the second coordinate returned
    is not the float64 0.032342. *)
Lemma NormalizePoint_literal_inexact :
  NormalizePoint test_box (Some [0.355; 0.532342; 0.134234]%float) true
  <> Ret (Some [0; 0.032342; 0]%float, None).
Proof.
  intros H.
  assert (E : match NormalizePoint test_box
                      (Some [0.355; 0.532342; 0.134234]%float) true with
              | Ret (Some [_; y; _], _) => (y =? 0.032342)%float
              | _ => false
              end = true) by (rewrite H; reflexivity).
  vm_compute in E. discriminate E.
Qed.

(** C8, amended.  For the interaction box with center (1,1,1) and size
    (1,1,1): the point (0.355, 0.532342, 0.134234) with clamp set gives
    exactly (0, 0.03234199999999998, 0), the value the repository's test
    expects, and the point (1,1,1) without clamp gives exactly
    (0.5, 0.5, 0.5). *)
Theorem NormalizePoint_literal :
  NormalizePoint test_box (Some [0.355; 0.532342; 0.134234]%float) true
    = Ret (Some [0; 0.03234199999999998; 0]%float, None)
  /\ NormalizePoint test_box (Some [1; 1; 1]%float) false
     = Ret (Some [0.5; 0.5; 0.5]%float, None).
Proof. split; vm_compute; reflexivity. Qed.

(** C9, as stated, fails: normalizing the clamped output again applies the
    affine map again.  In the volume of the test the point (1,1,1) goes to
    (0.5,0.5,0.5), and that goes to (0,0,0). *)
Lemma NormalizePoint_twice_differs :
  ~ (forall (i : InteractionBox) (position out : list float),
        NormalizePoint i (Some position) true = Ret (Some out, None) ->
        NormalizePoint i (Some out) true = Ret (Some out, None)).
Proof.
  intros H.
  specialize (H test_box [1; 1; 1]%float [0.5; 0.5; 0.5]%float eq_refl).
  assert (E : match NormalizePoint test_box (Some [0.5; 0.5; 0.5]%float) true with
              | Ret (Some [x; _; _], _) => (x =? 0.5)%float
              | _ => false
              end = true) by (rewrite H; reflexivity).
  vm_compute in E. discriminate E.
Qed.

(** C9, amended.  The clamp is idempotent: clamping a clamped value gives
    the same value, a value already in [0, 1] is left unchanged (equal
    under ==), and clamping each axis of an output of NormalizePoint with
    clamp set gives that output again.  (Normalizing the output again is a
    different operation.) *)
Theorem clamp01_idempotent :
  (forall v : float, clamp01 (clamp01 v) = clamp01 v) /\
  (forall v : float, in_unit_interval v -> (clamp01 v =? v)%float = true) /\
  (forall (cx cy cz : Z) (ct : list Z) (sx sy sz : float) (st : list float)
          (px py pz : float) (pt : list float),
      exists out,
        NormalizePoint (mkInteractionBox (Some (cx :: cy :: cz :: ct))
                                         (Some (sx :: sy :: sz :: st)))
                       (Some (px :: py :: pz :: pt)) true
        = Ret (Some out, None)
        /\ map clamp01 out = out).
Proof.
  split; [exact clamp01_idem|]. split.
  - intros v [H0 H1]. apply clamp01_inside; assumption.
  - intros. rewrite NormalizePoint_eq. eexists. split; [reflexivity|].
    cbn [map]. rewrite !clamp01_idem. reflexivity.
Qed.

Lemma clamp01_idempotent_witness :
  clamp01 (clamp01 3.25) = clamp01 3.25 /\ (clamp01 0.25 =? 0.25)%float = true.
Proof.
  destruct clamp01_idempotent as (Hidem & Hin & _).
  split.
  - apply (Hidem 3.25%float).
  - apply (Hin 0.25%float). split; reflexivity.
Defined.

(** ** The client in a fresh process *)

Lemma Connect_boot_inv (h : option Handler) (e : Endpoint) (w1 : World) (c : Client) :
  Connect h (boot e) = (w1, (Some c, None)) ->
  c = first_client h /\
  exists inbox faults faults',
    e = Accepts inbox faults /\
    w1 = single e (mkConn false inbox handshake faults') [] (Starting c) [].
Proof.
  destruct e as [err | inbox faults]; [discriminate|].
  destruct faults as [|[e1|] [|[e2|] faults]]; try discriminate;
    intros H; injection H as <- <-; split; try reflexivity;
    do 3 eexists; split; reflexivity.
Qed.








(** ** The receive loop over the payloads that arrived *)

Lemma deliveries_app (h : Handler) (a b : list Message) (d : Frame) :
  deliveries h d (a ++ b) = deliveries h d a ++ deliveries h (decoded d a) b.
Proof.
  revert d. induction a as [|m a IH]; intros d; [reflexivity|].
  cbn. destruct (msg_err m); rewrite IH; reflexivity.
Qed.

Lemma deliveries_well_formed (h : Handler) (msgs : list Message) (d : Frame) :
  Forall well_formed msgs -> Forall2 (delivers h) msgs (deliveries h d msgs).
Proof.
  intros Hwf. revert d.
  induction Hwf as [|m msgs Hm _ IH]; intros d; cbn; [constructor|].
  rewrite Hm. constructor; [|apply IH].
  split; [reflexivity|]. exists d. reflexivity.
Qed.

Lemma deliveries_malformed (h : Handler) (bad : Message) (post : list Message)
      (d : Frame) :
  malformed bad ->
  deliveries h d (bad :: post) = deliveries h (msg_decode bad d) post.
Proof.
  unfold malformed. intros Hbad. cbn.
  destruct (msg_err bad); [reflexivity | congruence].
Qed.


Lemma act_Step_blocked (c : Client) (e : Endpoint) (out : list json_object)
      (faults : list (option error)) (d : Frame) (cl : list Call) :
  ws c = Some 0%nat ->
  act (Step 0) (single e (mkConn false [] out faults) [d] (Looping c 0%nat) cl)
  = single e (mkConn false [] out faults) [d] (Looping c 0%nat) cl.
Proof. intros Hws. cbn. rewrite Hws. reflexivity. Qed.

Lemma act_Step_payload (h : Handler) (e : Endpoint) (out : list json_object)
      (faults : list (option error)) (m : Message) (msgs : list Message)
      (d : Frame) (cl : list Call) :
  act (Step 0) (single e (mkConn false (m :: msgs) out faults) [d]
                       (Looping (first_client (Some h)) 0%nat) cl)
  = single e (mkConn false msgs out faults) [msg_decode m d]
           (Looping (first_client (Some h)) 0%nat)
           (cl ++ match msg_err m with
                  | None => [mkCall h 0%nat (msg_decode m d)]
                  | Some _ => []
                  end).
Proof.
  cbn. destruct (msg_err m); cbn; [rewrite app_nil_r|]; reflexivity.
Qed.

(** [n] turns of the loop on an open connection: the first [n] payloads
    are consumed, decoded one after the other into the one frame, and the
    handler is called for the well-formed ones. *)
Lemma run_steps (h : Handler) (e : Endpoint) (out : list json_object)
      (faults : list (option error)) (n : nat) :
  forall (msgs : list Message) (d : Frame) (cl : list Call),
    run (repeat (Step 0) n)
        (single e (mkConn false msgs out faults) [d]
                (Looping (first_client (Some h)) 0%nat) cl)
    = single e (mkConn false (drop n msgs) out faults) [decoded d (take n msgs)]
             (Looping (first_client (Some h)) 0%nat)
             (cl ++ deliveries h d (take n msgs)).
Proof.
  induction n as [|n IH]; intros msgs d cl.
  - cbn. rewrite drop_0, app_nil_r. reflexivity.
  - change (run (repeat (Step 0) (S n)) ?w)
      with (run (repeat (Step 0) n) (act (Step 0) w)).
    destruct msgs as [|m msgs].
    + rewrite act_Step_blocked, IH by reflexivity.
      rewrite !take_nil, !drop_nil. reflexivity.
    + rewrite act_Step_payload, IH. cbn [take drop decoded fold_left deliveries].
      destruct (msg_err m); rewrite <- app_assoc; reflexivity.
Qed.

(** ** The claims on the client *)



(** C5.  In a client's receive loop, when the payloads that arrived are
    well-formed ones with one malformed one among them, running the loop
    over them calls the handler once for every well-formed payload, in
    arrival order, with the frame decoded from it, and not for the malformed
    one; afterwards all payloads are consumed, the goroutine is still in the
    loop and the done channel is open.  (processData has no result: nothing
    of the decode error reaches the caller.) *)
Theorem processData_skips_malformed (h : Handler) (pre post : list Message)
        (bad : Message) (faults : list (option error)) (w1 : World) (c : Client) :
  Forall well_formed pre -> malformed bad -> Forall well_formed post ->
  Connect (Some h) (boot (Accepts (pre ++ bad :: post) faults))
    = (w1, (Some c, None)) ->
  let w2 := run (repeat (Step 0) (S (length (pre ++ bad :: post)))) w1 in
  Forall2 (delivers h) (pre ++ post) (calls w2)
  /\ (exists conn, conns w2 = [conn] /\ conn_inbox conn = [])
  /\ goroutines w2 = [Looping c 0%nat]
  /\ chans w2 !! Done c = Some ChanOpen.
Proof.
  intros Hpre Hbad Hpost Hconnect w2.
  apply Connect_boot_inv in Hconnect as (-> & inbox & faults0 & faults' & [= <- _] & ->).
  subst w2.
  change (run (repeat (Step 0) (S ?n)) ?w)
    with (run (repeat (Step 0) n) (act (Step 0) w)).
  change (act (Step 0) (single ?e ?conn [] (Starting ?c) []))
    with (single e conn [Frame_zero] (Looping c 0%nat) []).
  rewrite run_steps, take_ge, drop_ge by reflexivity.
  cbn [single calls conns goroutines chans app].
  split; [|split; [eexists; split; reflexivity | split; reflexivity]].
  rewrite deliveries_app, (deliveries_malformed _ _ _ _ Hbad).
  apply Forall2_app; apply deliveries_well_formed; assumption.
Qed.

Lemma processData_skips_malformed_witness :
  let h := 7%nat in
  let pre := [full_message (frame_with_id 1)] in
  let post := [full_message (frame_with_id 2); full_message (frame_with_id 3)] in
  let w1 := fst (Connect (Some h) (boot (Accepts (pre ++ garbage :: post) []))) in
  let w2 := run (repeat (Step 0) 5) w1 in
  Forall2 (delivers h) (pre ++ post) (calls w2)
  /\ (exists conn, conns w2 = [conn] /\ conn_inbox conn = [])
  /\ goroutines w2 = [Looping (first_client (Some h)) 0%nat]
  /\ chans w2 !! Done (first_client (Some h)) = Some ChanOpen.
Proof.
  apply (processData_skips_malformed
           7%nat [full_message (frame_with_id 1)]
           [full_message (frame_with_id 2); full_message (frame_with_id 3)]
           garbage [] _ (first_client (Some 7%nat))).
  - repeat constructor.
  - unfold malformed. simpl. discriminate.
  - repeat constructor.
  - reflexivity.
Defined.









(** ** Connect *)

Lemma lookup_total_snoc (l : list Conn) (x : Conn) : (l ++ [x]) !!! length l = x.
Proof. apply list_lookup_total_middle. reflexivity. Qed.

Lemma insert_snoc (l : list Conn) (x y : Conn) :
  <[length l:=y]> (l ++ [x]) = l ++ [y].
Proof.
  rewrite insert_app_r_alt by reflexivity.
  rewrite Nat.sub_diag. reflexivity.
Qed.

Lemma JSON_Send_snoc (e : Endpoint) (l : list Conn) (conn : Conn)
      (fs : list Frame) (cs : list chan) (gs : list Goroutine) (cl : list Call)
      (v : json_object) :
  JSON_Send (length l) v (mkWorld e (l ++ [conn]) fs cs gs cl)
  = (mkWorld e (l ++ [fst (Conn_Send conn v)]) fs cs gs cl,
     snd (Conn_Send conn v)).
Proof.
  unfold JSON_Send. cbn [endpoint conns frames chans goroutines calls].
  rewrite lookup_total_snoc. destruct (Conn_Send conn v) as [conn' err].
  rewrite insert_snoc. reflexivity.
Qed.

(** C10.  When the first or the second configuration send fails, Connect
    returns a nil client and the send error, starts no goroutine, and does
    not close the connection it dialled: the connection object is there,
    open, and nothing returned refers to it. *)
Theorem Connect_send_failure (h : option Handler) (w : World)
        (inbox : list Message) (faults rest : list (option error)) (e : error) :
  endpoint w = Accepts inbox faults ->
  faults = Some e :: rest \/ faults = None :: Some e :: rest ->
  exists w' conn,
    Connect h w = (w', (None, Some e))
    /\ goroutines w' = goroutines w
    /\ conns w' = conns w ++ [conn]
    /\ conn_closed conn = false
    /\ frames w' = frames w /\ calls w' = calls w.
Proof.
  destruct w as [e0 l fs cs gs cl]. cbn [endpoint conns goroutines frames calls].
  intros -> [-> | ->]; unfold Connect, websocket_Dial, make_chan;
    cbn [endpoint conns frames chans goroutines calls];
    rewrite JSON_Send_snoc; cbn [Conn_Send conn_closed conn_faults fst snd].
  - do 2 eexists. repeat split.
  - rewrite JSON_Send_snoc. cbn [Conn_Send conn_closed conn_faults fst snd].
    do 2 eexists. repeat split.
Qed.

Lemma Connect_send_failure_witness :
  exists w' conn,
    Connect (Some 7%nat)
            (boot (Accepts [] [None; Some "broken pipe"%string]))
    = (w', (None, Some "broken pipe"%string))
    /\ goroutines w' = []
    /\ conns w' = [conn]
    /\ conn_closed conn = false
    /\ frames w' = [] /\ calls w' = [].
Proof.
  apply (Connect_send_failure
           (Some 7%nat) (boot (Accepts [] [None; Some "broken pipe"%string]))
           [] [None; Some "broken pipe"%string] [] "broken pipe"%string).
  - reflexivity.
  - right. reflexivity.
Defined.

(** * Further properties of the code *)

(** ** Arithmetic of NormalizePoint at the edges *)

Section Float64Edges.

Local Open Scope float_scope.

Lemma is_number_cases (p : float) :
  is_number p ->
  p = 0 \/ p = neg_zero \/ exists s m e, Prim2SF p = S754_finite s m e.
Proof.
  intros [Hnan Hinf].
  destruct (float_cases p) as [->|[->|[->|[->|[->|Hfin]]]]]; auto;
    vm_compute in Hnan, Hinf; discriminate.
Qed.

Lemma sub_self (p : float) : is_number p -> p - p = 0.
Proof.
  intros Hp.
  destruct (is_number_cases p Hp) as [->|[->|(s & m & e & Hv)]];
    try reflexivity.
  apply Prim2SF_inj. rewrite sub_spec, Hv.
  change (Prim2SF 0) with (S754_zero false).
  unfold SF64sub, SFsub, shl_align.
  rewrite Z.min_id, Z.sub_diag. cbn [fst].
  reflexivity.
Qed.

Lemma zero_div_plus_half (s : float) : usable_extent s -> 0 / s + 0.5 = 0.5.
Proof.
  intros [Hnan Hz].
  apply Prim2SF_inj. rewrite add_spec, div_spec.
  change (Prim2SF 0) with (S754_zero false).
  destruct (float_cases s) as [->|[->|[->|[->|[->|(b & m & e & Hv)]]]]];
    try reflexivity; try (vm_compute in Hnan, Hz; discriminate).
  rewrite Hv. reflexivity.
Qed.

Lemma zero_extent_not_finite (x s : float) :
  (s =? 0) = true ->
  math_IsNaN (x / s + 0.5) || math_IsInf (x / s + 0.5) 0 = true.
Proof.
  intros Hz.
  assert (Hs : s = 0 \/ s = neg_zero).
  { destruct (float_cases s) as [->|[->|[->|[->|[->|(b & m & e & Hv)]]]]];
      auto; try (vm_compute in Hz; discriminate).
    rewrite FloatAxioms.eqb_spec, Hv in Hz.
    change (Prim2SF 0) with (S754_zero false) in Hz.
    destruct b; discriminate. }
  assert (Hq : x / s = nan \/ x / s = infinity \/ x / s = neg_infinity).
  { rewrite <- (SF2Prim_Prim2SF (x / s)), div_spec.
    destruct Hs as [-> | ->];
      [change (Prim2SF 0) with (S754_zero false)
      |change (Prim2SF neg_zero) with (S754_zero true)];
      destruct (Prim2SF x) as [[]|[]| |[] m e]; cbn; auto. }
  destruct Hq as [-> | [-> | ->]]; reflexivity.
Qed.

End Float64Edges.

(** ** The order of binary64 and the clamp *)

Section Float64Order.

Local Open Scope float_scope.

Ltac compare_cases :=
  repeat match goal with
         | H : context [Pos.compare_cont Eq ?a ?b] |- _ =>
             change (Pos.compare_cont Eq a b) with (a ?= b)%positive in H
         | |- context [Pos.compare_cont Eq ?a ?b] =>
             change (Pos.compare_cont Eq a b) with (a ?= b)%positive
         end;
  repeat match goal with
         | H : context [(?a ?= ?b)%Z] |- _ =>
             destruct (Z.compare_spec a b); cbn in H; try discriminate H
         | |- context [(?a ?= ?b)%Z] =>
             destruct (Z.compare_spec a b); cbn; try reflexivity
         | H : context [(?a ?= ?b)%positive] |- _ =>
             destruct (Pos.compare_spec a b); cbn in H; try discriminate H
         | |- context [(?a ?= ?b)%positive] =>
             destruct (Pos.compare_spec a b); cbn; try reflexivity
         end;
  try reflexivity; try lia.

Lemma SFleb_ltb_trans (x y z : spec_float) :
  SFleb x y = true -> SFltb y z = true -> SFltb x z = true.
Proof.
  unfold SFleb, SFltb.
  destruct x as [[]|[]| |[] mx ex], y as [[]|[]| |[] my ey],
           z as [[]|[]| |[] mz ez];
    cbn [SFcompare]; intros H1 H2;
    try reflexivity; try discriminate H1; try discriminate H2;
    compare_cases.
Qed.

Lemma SFltb_leb_trans (x y z : spec_float) :
  SFltb x y = true -> SFleb y z = true -> SFltb x z = true.
Proof.
  unfold SFleb, SFltb.
  destruct x as [[]|[]| |[] mx ex], y as [[]|[]| |[] my ey],
           z as [[]|[]| |[] mz ez];
    cbn [SFcompare]; intros H1 H2;
    try reflexivity; try discriminate H1; try discriminate H2;
    compare_cases.
Qed.

Lemma leb_ltb_trans (x y z : float) :
  (x <=? y) = true -> (y <? z) = true -> (x <? z) = true.
Proof. rewrite FloatAxioms.leb_spec, !FloatAxioms.ltb_spec. apply SFleb_ltb_trans. Qed.

Lemma ltb_leb_trans (x y z : float) :
  (x <? y) = true -> (y <=? z) = true -> (x <? z) = true.
Proof. rewrite FloatAxioms.leb_spec, !FloatAxioms.ltb_spec. apply SFltb_leb_trans. Qed.

Lemma leb_not_nan_r (x y : float) : (x <=? y) = true -> is_nan y = false.
Proof.
  rewrite is_nan_spec, FloatAxioms.leb_spec. unfold SFleb.
  destruct (Prim2SF x), (Prim2SF y); simpl; congruence.
Qed.

Lemma clamp01_monotone (v w : float) :
  (v <=? w) = true -> (clamp01 v <=? clamp01 w) = true.
Proof.
  intros Hvw.
  pose proof (leb_not_nan_l _ _ Hvw) as Hv.
  pose proof (leb_not_nan_r _ _ Hvw) as Hw.
  destruct (clamp01_range w Hw) as [Hw0 Hw1].
  rewrite (clamp01_eq v), Hv.
  destruct (0 <? v) eqn:Hpos; [|exact Hw0].
  pose proof (ltb_leb_trans _ _ _ Hpos Hvw) as Hposw.
  rewrite (clamp01_eq w), Hw, Hposw.
  destruct (w <? 1) eqn:Hw1'.
  - rewrite (leb_ltb_trans _ _ _ Hvw Hw1'). exact Hvw.
  - destruct (v <? 1) eqn:Hv1; [apply ltb_leb, Hv1 | reflexivity].
Qed.

End Float64Order.

(** ** NormalizePoint: what a caller can rely on *)

(** X1.  NormalizePoint never panics: whatever the slices (nil, short or
    long), it returns.  It returns either no result and an error, exactly
    when center, size or point has fewer than 3 components, or a result of
    3 components and no error. *)
Theorem NormalizePoint_never_panics (i : InteractionBox) (position : slice float)
        (clamp : bool) :
  exists r,
    NormalizePoint i position clamp = Ret r
    /\ match r with
       | (None, Some _) =>
           len (Center i) < 3 \/ len (Size i) < 3 \/ len position < 3
       | (Some vec, None) =>
           3 <= len (Center i) /\ 3 <= len (Size i) /\ 3 <= len position
           /\ length vec = 3%nat
       | _ => False
       end.
Proof.
  destruct i as [center size]. cbn [Center Size].
  destruct (Z.lt_ge_cases (len center) 3) as [Hc | Hc].
  { eexists. unfold NormalizePoint. cbn [Center Size].
    rewrite (len_lt3_true _ Hc). split; [reflexivity|]. cbn. auto. }
  destruct (Z.lt_ge_cases (len size) 3) as [Hs | Hs].
  { apply len_ge3_inv in Hc as (a & b & c & t & ->).
    eexists. unfold NormalizePoint. cbn [Center Size is_nil orb].
    rewrite len_lt3_false, (len_lt3_true _ Hs).
    split; [reflexivity|]. cbn iota. auto. }
  destruct (Z.lt_ge_cases (len position) 3) as [Hp | Hp].
  { apply len_ge3_inv in Hc as (a & b & c & t & ->).
    apply len_ge3_inv in Hs as (a' & b' & c' & t' & ->).
    eexists. unfold NormalizePoint. cbn [Center Size is_nil orb].
    rewrite !len_lt3_false, (len_lt3_true _ Hp).
    split; [reflexivity|]. cbn iota. auto. }
  pose proof Hc as Hc'. pose proof Hs as Hs'. pose proof Hp as Hp'.
  apply len_ge3_inv in Hc' as (a & b & c & t & ->).
  apply len_ge3_inv in Hs' as (a' & b' & c' & t' & ->).
  apply len_ge3_inv in Hp' as (a'' & b'' & c'' & t'' & ->).
  eexists. rewrite NormalizePoint_eq. split; [reflexivity|].
  cbn iota. repeat split; try assumption. destruct clamp; reflexivity.
Qed.

(** X2.  Only the first three components of center, size and point count:
    whatever follows them, the result is that of the three-component
    inputs. *)
Theorem NormalizePoint_first_three (cx cy cz : Z) (ct : list Z)
        (sx sy sz : float) (st : list float) (px py pz : float)
        (pt : list float) (clamp : bool) :
  NormalizePoint (mkInteractionBox (Some (cx :: cy :: cz :: ct))
                                   (Some (sx :: sy :: sz :: st)))
                 (Some (px :: py :: pz :: pt)) clamp
  = NormalizePoint (mkInteractionBox (Some [cx; cy; cz]) (Some [sx; sy; sz]))
                   (Some [px; py; pz]) clamp.
Proof. rewrite !NormalizePoint_eq. reflexivity. Qed.

Lemma affine_value_center (c : Z) (s : float) :
  is_number (float64_of_int c) -> usable_extent s ->
  affine_value (float64_of_int c) c s = 0.5%float.
Proof.
  intros Hc Hs. unfold affine_value.
  rewrite (sub_self _ Hc). apply zero_div_plus_half, Hs.
Qed.

(** X3.  The centre of the box goes to the middle: when the point is the
    center (converted to float64, a number) and no size component is NaN or
    zero, the result is (0.5, 0.5, 0.5), with or without clamp, whatever the
    sizes are otherwise (negative and infinite ones included). *)
Theorem NormalizePoint_center (cx cy cz : Z) (ct : list Z) (sx sy sz : float)
        (st pt : list float) (clamp : bool) :
  Forall (fun c => is_number (float64_of_int c)) [cx; cy; cz] ->
  Forall usable_extent [sx; sy; sz] ->
  NormalizePoint (mkInteractionBox (Some (cx :: cy :: cz :: ct))
                                   (Some (sx :: sy :: sz :: st)))
                 (Some (float64_of_int cx :: float64_of_int cy
                          :: float64_of_int cz :: pt)) clamp
  = Ret (Some [0.5; 0.5; 0.5]%float, None).
Proof.
  intros Hc Hs.
  apply Forall_cons in Hc as [Hcx Hc]. apply Forall_cons in Hc as [Hcy Hc].
  apply Forall_cons in Hc as [Hcz _].
  apply Forall_cons in Hs as [Hsx Hs]. apply Forall_cons in Hs as [Hsy Hs].
  apply Forall_cons in Hs as [Hsz _].
  rewrite NormalizePoint_eq, !affine_value_center by assumption.
  destruct clamp; reflexivity.
Qed.

Lemma NormalizePoint_center_witness :
  NormalizePoint (mkInteractionBox (Some [0; -120; 9007199254740993])
                                   (Some [235.25; -3; infinity]%float))
                 (Some [float64_of_int 0; float64_of_int (-120);
                        float64_of_int 9007199254740993]) true
  = Ret (Some [0.5; 0.5; 0.5]%float, None).
Proof.
  apply (NormalizePoint_center 0 (-120) 9007199254740993 []
                               235.25 (-3) infinity [] [] true).
  - repeat constructor.
  - repeat constructor.
Defined.

(** X4.  A zero size component is not refused and is divided by: on that
    axis the unclamped result is NaN or an infinity, never a number, and the
    clamped result is NaN, 0 or 1; the call returns no error. *)
Theorem NormalizePoint_zero_extent (cx cy cz : Z) (ct : list Z)
        (sx sy sz : float) (st : list float) (px py pz : float)
        (pt : list float) :
  let box := mkInteractionBox (Some (cx :: cy :: cz :: ct))
                              (Some (sx :: sy :: sz :: st)) in
  let position := Some (px :: py :: pz :: pt) in
  exists raw out,
    NormalizePoint box position false = Ret (Some raw, None)
    /\ NormalizePoint box position true = Ret (Some out, None)
    /\ Forall2 (fun s r => (s =? 0)%float = true ->
                           math_IsNaN r || math_IsInf r 0 = true)
               [sx; sy; sz] raw
    /\ Forall2 (fun s o => (s =? 0)%float = true ->
                           o = nan \/ o = 0%float \/ o = 1%float)
               [sx; sy; sz] out.
Proof.
  intros box position. subst box position.
  rewrite !NormalizePoint_eq. eexists _, _.
  split; [reflexivity|]. split; [reflexivity|].
  assert (Hclamp : forall x s : float,
             (s =? 0)%float = true ->
             clamp01 (x / s + 0.5)%float = nan
             \/ clamp01 (x / s + 0.5)%float = 0%float
             \/ clamp01 (x / s + 0.5)%float = 1%float).
  { intros x s Hz. pose proof (zero_extent_not_finite x s Hz) as H.
    destruct (float_cases (x / s + 0.5)%float)
      as [E|[E|[E|[E|[E|(b & m & e & E)]]]]];
      try (rewrite E in H |- *; vm_compute; auto; fail);
      try (rewrite E in H; vm_compute in H; discriminate H).
    exfalso. destruct (finite_tests _ b m e E) as (Hi & Hn & Hr & _).
    unfold math_IsNaN, math_IsInf in H. rewrite Hi, Hn, Hr in H.
    cbn in H. discriminate H. }
  split.
  - do 3 (constructor; [apply zero_extent_not_finite|]). constructor.
  - do 3 (constructor; [apply Hclamp|]). constructor.
Qed.

Lemma NormalizePoint_zero_extent_witness :
  exists raw out,
    NormalizePoint (mkInteractionBox (Some [1; 1; 1]) (Some [0; neg_zero; 1]%float))
                   (Some [1; 2.5; 1]%float) false = Ret (Some raw, None)
    /\ NormalizePoint (mkInteractionBox (Some [1; 1; 1])
                                        (Some [0; neg_zero; 1]%float))
                      (Some [1; 2.5; 1]%float) true = Ret (Some out, None)
    /\ raw = [nan; neg_infinity; 0.5]%float
    /\ out = [nan; 0; 0.5]%float.
Proof.
  destruct (NormalizePoint_zero_extent 1 1 1 [] 0 neg_zero 1 [] 1 2.5 1 [])
    as (raw & out & Hraw & Hout & _ & _).
  exists raw, out. split; [exact Hraw|]. split; [exact Hout|].
  vm_compute in Hraw, Hout.
  injection Hraw as <-. injection Hout as <-. split; reflexivity.
Defined.

(** X5.  Clamping keeps the order: for two points in the same box, on every
    axis where the unclamped results are ordered (v <= w, so neither is
    NaN) the clamped results are ordered the same way. *)
Theorem NormalizePoint_clamp_monotone (cx cy cz : Z) (ct : list Z)
        (sx sy sz : float) (st : list float)
        (px py pz : float) (pt : list float) (qx qy qz : float) (qt : list float) :
  let box := mkInteractionBox (Some (cx :: cy :: cz :: ct))
                              (Some (sx :: sy :: sz :: st)) in
  exists rawp rawq outp outq,
    NormalizePoint box (Some (px :: py :: pz :: pt)) false = Ret (Some rawp, None)
    /\ NormalizePoint box (Some (qx :: qy :: qz :: qt)) false = Ret (Some rawq, None)
    /\ NormalizePoint box (Some (px :: py :: pz :: pt)) true = Ret (Some outp, None)
    /\ NormalizePoint box (Some (qx :: qy :: qz :: qt)) true = Ret (Some outq, None)
    /\ forall (k : nat) (v w o o' : float),
         rawp !! k = Some v -> rawq !! k = Some w ->
         outp !! k = Some o -> outq !! k = Some o' ->
         (v <=? w)%float = true -> (o <=? o')%float = true.
Proof.
  intros box. subst box. rewrite !NormalizePoint_eq.
  eexists _, _, _, _. do 4 (split; [reflexivity|]).
  intros [|[|[|k]]] v w o o'; cbn; try discriminate;
    intros [= <-] [= <-] [= <-] [= <-]; apply clamp01_monotone.
Qed.

Lemma NormalizePoint_clamp_monotone_witness :
  exists outp outq,
    NormalizePoint test_box (Some [0.355; 1.25; 7]%float) true = Ret (Some outp, None)
    /\ NormalizePoint test_box (Some [1; 1.25; 9]%float) true = Ret (Some outq, None)
    /\ forall (k : nat) (o o' : float),
         outp !! k = Some o -> outq !! k = Some o' -> (o <=? o')%float = true.
Proof.
  destruct (NormalizePoint_clamp_monotone 1 1 1 [] 1 1 1 []
              0.355 1.25 7 [] 1 1.25 9 [])
    as (rawp & rawq & outp & outq & Hrp & Hrq & Hop & Hoq & Hmono).
  exists outp, outq. split; [exact Hop|]. split; [exact Hoq|].
  vm_compute in Hrp, Hrq. injection Hrp as <-. injection Hrq as <-.
  intros [|[|[|k]]] o o' Ho Ho';
    try (eapply (Hmono 0%nat); [reflexivity | reflexivity | exact Ho | exact Ho' | reflexivity]);
    try (eapply (Hmono 1%nat); [reflexivity | reflexivity | exact Ho | exact Ho' | reflexivity]);
    try (eapply (Hmono 2%nat); [reflexivity | reflexivity | exact Ho | exact Ho' | reflexivity]).
  vm_compute in Hop. injection Hop as <-. discriminate Ho.
Defined.

(** ** The history of a client *)

Lemma decoded_snoc (d : Frame) (msgs : list Message) (m : Message) :
  decoded d (msgs ++ [m]) = msg_decode m (decoded d msgs).
Proof. unfold decoded. rewrite fold_left_app. reflexivity. Qed.

Lemma handler_calls_snoc (h : option Handler) (consumed : list Message) (m : Message) :
  handler_calls h (consumed ++ [m])
  = handler_calls h consumed
    ++ match h, msg_err m with
       | Some h, None => [mkCall h 0%nat (decoded Frame_zero (consumed ++ [m]))]
       | _, _ => []
       end.
Proof.
  destruct h as [h|]; cbn [handler_calls]; [|reflexivity].
  rewrite deliveries_app, decoded_snoc. cbn [deliveries].
  destruct (msg_err m); reflexivity.
Qed.

Lemma following_loop_eq (h : option Handler) (arrived : list Message)
      (closed : bool) (e : Endpoint) (faults : list (option error))
      (consumed unread : list Message) (d : Frame) (cl : list Call) :
  arrived = consumed ++ unread ->
  d = decoded Frame_zero consumed ->
  cl = handler_calls h consumed ->
  following h arrived closed
    (single e (mkConn closed unread handshake faults) [d]
            (Looping (first_client h) 0%nat) cl).
Proof. intros -> -> ->. constructor. reflexivity. Qed.

Lemma following_Connect (h : option Handler) (inbox : list Message)
      (faults : list (option error)) (w1 : World) (c : Client) :
  Connect h (boot (Accepts inbox faults)) = (w1, (Some c, None)) ->
  following h inbox false w1.
Proof.
  intros H.
  apply Connect_boot_inv in H as (-> & inbox0 & faults0 & faults' & [= <- _] & ->).
  constructor.
Qed.

Lemma act_following (h : option Handler) (arrived : list Message) (closed : bool)
      (a : action) (w : World) :
  following h arrived closed w ->
  following h (arrived ++ arrival 0 a) (closed || closes 0 a) (act a w).
Proof.
  intros [e faults | e faults consumed unread Harr].
  - (* before the first turn *)
    destruct a as [[|g] | c' | [|k] m]; cbn [arrival closes Nat.eqb];
      rewrite ?app_nil_r, ?orb_false_r.
    + apply (following_loop_eq h arrived closed e faults [] arrived);
        try reflexivity.
      destruct h; reflexivity.
    + constructor.
    + destruct c' as [[[|k]|] h' d']; cbn [closes ws Nat.eqb act Close fst];
        rewrite ?orb_false_r, ?orb_true_r; try constructor.
      destruct closed; constructor.
    + constructor.
    + constructor.
  - (* in the loop *)
    destruct a as [[|g] | c' | [|k] m]; cbn [arrival closes Nat.eqb];
      rewrite ?app_nil_r, ?orb_false_r.
    + destruct closed; [constructor; exact Harr|].
      destruct unread as [|m unread]; [constructor; exact Harr|].
      cbn. destruct (msg_err m) as [err|] eqn:Hm.
      * apply (following_loop_eq h arrived false e faults (consumed ++ [m]) unread);
          [ rewrite <- app_assoc; exact Harr
          | rewrite decoded_snoc; reflexivity
          | rewrite handler_calls_snoc, Hm;
            destruct h; rewrite app_nil_r; reflexivity ].
      * destruct h as [h|]; cbn;
          (apply (following_loop_eq _ arrived false e faults (consumed ++ [m]) unread);
           [ rewrite <- app_assoc; exact Harr
           | rewrite decoded_snoc; reflexivity
           | rewrite handler_calls_snoc, ?Hm, ?decoded_snoc, ?app_nil_r;
             reflexivity ]).
    + constructor; exact Harr.
    + destruct c' as [[[|k]|] h' d']; cbn [closes ws Nat.eqb act Close fst];
        rewrite ?orb_false_r, ?orb_true_r; try (constructor; exact Harr).
      destruct closed; constructor; exact Harr.
    + cbn. apply (following_loop_eq h _ closed e faults consumed (unread ++ [m]));
        [|reflexivity|reflexivity].
      rewrite Harr, app_assoc. reflexivity.
    + constructor; exact Harr.
Qed.

Lemma run_following (h : option Handler) (sched : list action) :
  forall (arrived : list Message) (closed : bool) (w : World),
    following h arrived closed w ->
    following h (arrived ++ arrivals 0 sched)
              (closed || existsb (closes 0) sched) (run sched w).
Proof.
  induction sched as [|a sched IH]; intros arrived closed w Hw.
  - cbn. rewrite app_nil_r, orb_false_r. exact Hw.
  - cbn [run arrivals flat_map existsb].
    rewrite app_assoc, orb_assoc. apply IH, act_following, Hw.
Qed.

Lemma deliveries_filter (h : Handler) (msgs : list Message) (d : Frame) :
  Forall2 (delivers h) (List.filter is_well_formed msgs) (deliveries h d msgs).
Proof.
  revert d. induction msgs as [|m msgs IH]; intros d; cbn; [constructor|].
  unfold is_well_formed. destruct (msg_err m); [apply IH|].
  constructor; [|apply IH]. split; [reflexivity|]. exists d. reflexivity.
Qed.

Lemma following_inv (h : option Handler) (arrived : list Message) (closed : bool)
      (w : World) :
  following h arrived closed w ->
  exists consumed unread conn,
    arrived = consumed ++ unread
    /\ conns w = [conn]
    /\ conn_inbox conn = unread
    /\ conn_outbox conn = handshake
    /\ conn_closed conn = closed
    /\ calls w = handler_calls h consumed
    /\ (frames w = [] \/ frames w = [decoded Frame_zero consumed]).
Proof.
  intros [e faults | e faults consumed unread Harr].
  - exists [], arrived. eexists. repeat split; try reflexivity.
    + destruct h; reflexivity.
    + left. reflexivity.
  - exists consumed, unread. eexists. repeat split; try reflexivity; auto.
Qed.

(** ** The client under any schedule *)

(** X6.  In-order, at-most-once delivery, whatever the interleaving: after
    any schedule of loop turns, Close calls and arrivals, the payloads that
    arrived split into a consumed prefix and the unread rest still in the
    connection, and the handler calls made so far are, in arrival order, one
    for each well-formed payload of the consumed prefix, with the frame
    decoded from it. *)
Theorem handler_calls_follow_arrivals (h : Handler) (inbox : list Message)
        (faults : list (option error)) (w1 : World) (c : Client)
        (sched : list action) :
  Connect (Some h) (boot (Accepts inbox faults)) = (w1, (Some c, None)) ->
  exists consumed unread conn,
    inbox ++ arrivals 0 sched = consumed ++ unread
    /\ conns (run sched w1) = [conn]
    /\ conn_inbox conn = unread
    /\ Forall2 (delivers h) (List.filter is_well_formed consumed)
               (calls (run sched w1)).
Proof.
  intros Hconnect.
  apply following_Connect in Hconnect.
  apply (run_following _ sched) in Hconnect.
  apply following_inv in Hconnect
    as (consumed & unread & conn & Harr & Hconns & Hin & _ & _ & Hcalls & _).
  exists consumed, unread, conn.
  repeat split; try assumption.
  rewrite Hcalls. apply deliveries_filter.
Qed.

Lemma handler_calls_follow_arrivals_witness :
  let w1 := fst (Connect (Some 7%nat)
                   (boot (Accepts [full_message (frame_with_id 1)] []))) in
  let sched := [Step 0; Arrive 0 garbage; Step 0; Step 0;
                Arrive 0 (full_message (frame_with_id 2));
                CallClose (first_client (Some 7%nat)); Step 0] in
  exists consumed unread conn,
    [full_message (frame_with_id 1)] ++ arrivals 0 sched = consumed ++ unread
    /\ conns (run sched w1) = [conn]
    /\ conn_inbox conn = unread
    /\ Forall2 (delivers 7%nat) (List.filter is_well_formed consumed)
               (calls (run sched w1)).
Proof.
  exact (handler_calls_follow_arrivals
           7%nat [full_message (frame_with_id 1)] [] _
           (first_client (Some 7%nat))
           [Step 0; Arrive 0 garbage; Step 0; Step 0;
            Arrive 0 (full_message (frame_with_id 2));
            CallClose (first_client (Some 7%nat)); Step 0] eq_refl).
Defined.

Lemma act_Step_payload_nil (e : Endpoint) (out : list json_object)
      (faults : list (option error)) (m : Message) (msgs : list Message)
      (d : Frame) (cl : list Call) :
  act (Step 0) (single e (mkConn false (m :: msgs) out faults) [d]
                       (Looping (first_client None) 0%nat) cl)
  = single e (mkConn false msgs out faults) [msg_decode m d]
           (Looping (first_client None) 0%nat) cl.
Proof. cbn. destruct (msg_err m); reflexivity. Qed.

Lemma run_steps_nil (e : Endpoint) (out : list json_object)
      (faults : list (option error)) (n : nat) :
  forall (msgs : list Message) (d : Frame) (cl : list Call),
    run (repeat (Step 0) n)
        (single e (mkConn false msgs out faults) [d]
                (Looping (first_client None) 0%nat) cl)
    = single e (mkConn false (drop n msgs) out faults) [decoded d (take n msgs)]
             (Looping (first_client None) 0%nat) cl.
Proof.
  induction n as [|n IH]; intros msgs d cl.
  - cbn. rewrite drop_0. reflexivity.
  - change (run (repeat (Step 0) (S n)) ?w)
      with (run (repeat (Step 0) n) (act (Step 0) w)).
    destruct msgs as [|m msgs].
    + rewrite act_Step_blocked, IH by reflexivity.
      rewrite !take_nil, !drop_nil. reflexivity.
    + rewrite act_Step_payload_nil, IH. reflexivity.
Qed.

(** X7.  With a nil frameHandler the loop still receives: after the first
    step and [n] turns on the open connection the first [n] payloads are
    consumed and decoded into the frame; and no handler call is ever
    recorded, whatever the schedule. *)
Theorem nil_handler_discards (inbox : list Message) (faults : list (option error))
        (w1 : World) (c : Client) :
  Connect None (boot (Accepts inbox faults)) = (w1, (Some c, None)) ->
  (forall sched : list action, calls (run sched w1) = [])
  /\ (forall n : nat,
        exists conn,
          conns (run (repeat (Step 0) (S n)) w1) = [conn]
          /\ conn_inbox conn = drop n inbox
          /\ frames (run (repeat (Step 0) (S n)) w1)
             = [decoded Frame_zero (take n inbox)]).
Proof.
  intros Hconnect. split.
  - intros sched. apply following_Connect in Hconnect.
    apply (run_following _ sched) in Hconnect.
    apply following_inv in Hconnect
      as (consumed & unread & conn & _ & _ & _ & _ & _ & Hcalls & _).
    exact Hcalls.
  - intros n.
    apply Connect_boot_inv in Hconnect
      as (-> & inbox0 & faults0 & faults' & [= <- _] & ->).
    change (run (repeat (Step 0) (S ?k)) ?w)
      with (run (repeat (Step 0) k) (act (Step 0) w)).
    change (act (Step 0) (single ?e ?conn [] (Starting ?c) []))
      with (single e conn [Frame_zero] (Looping c 0%nat) []).
    rewrite run_steps_nil. eexists. repeat split.
Qed.

Lemma nil_handler_discards_witness :
  let w1 := fst (Connect None
                   (boot (Accepts [full_message (frame_with_id 1);
                                   full_message (frame_with_id 2)] []))) in
  calls (run [Step 0; Step 0; Step 0] w1) = []
  /\ exists conn,
       conns (run (repeat (Step 0) 2) w1) = [conn]
       /\ conn_inbox conn = [full_message (frame_with_id 2)]
       /\ frames (run (repeat (Step 0) 2) w1) = [frame_with_id 1].
Proof.
  destruct (nil_handler_discards
              [full_message (frame_with_id 1); full_message (frame_with_id 2)]
              [] _ (first_client None) eq_refl) as [Hcalls Hsteps].
  split; [apply (Hcalls [Step 0; Step 0; Step 0])|].
  apply (Hsteps 1%nat).
Defined.

(** X8.  After Connect the client never writes again and only Close closes:
    whatever the schedule, the payloads written on the connection are the
    two of the handshake, in order, and the connection is closed exactly
    when the schedule has a Close call on it (the receive loop never closes
    it, a Close reaches it whenever it is called). *)
Theorem connection_written_once (h : option Handler) (inbox : list Message)
        (faults : list (option error)) (w1 : World) (c : Client)
        (sched : list action) :
  Connect h (boot (Accepts inbox faults)) = (w1, (Some c, None)) ->
  exists conn,
    conns (run sched w1) = [conn]
    /\ conn_outbox conn = handshake
    /\ conn_closed conn = existsb (closes 0) sched.
Proof.
  intros Hconnect.
  apply following_Connect in Hconnect.
  apply (run_following _ sched) in Hconnect.
  apply following_inv in Hconnect
    as (consumed & unread & conn & _ & Hconns & _ & Hout & Hclosed & _).
  exists conn. repeat split; assumption.
Qed.

Lemma connection_written_once_witness :
  let w1 := fst (Connect (Some 7%nat)
                   (boot (Accepts [full_message (frame_with_id 1)] []))) in
  exists conn,
    conns (run [Step 0; Step 0; Step 0; CallClose (mkClient (Some 3%nat) None 0%nat)]
               w1) = [conn]
    /\ conn_outbox conn = handshake
    /\ conn_closed conn = false.
Proof.
  exact (connection_written_once
           (Some 7%nat) [full_message (frame_with_id 1)] [] _
           (first_client (Some 7%nat))
           [Step 0; Step 0; Step 0; CallClose (mkClient (Some 3%nat) None 0%nat)]
           eq_refl).
Defined.

(** ** Connect in any world *)

Lemma Connect_cases (h : option Handler) (w : World) :
  Connect h w
  = match endpoint w with
    | Refuses e => (w, (None, Some e))
    | Accepts inbox faults =>
        match faults with
        | Some e :: rest => (dialled w inbox [] rest, (None, Some e))
        | None :: Some e :: rest =>
            (dialled w inbox [[("enableGestures"%string, true)]] rest,
             (None, Some e))
        | _ =>
            (go (Starting (next_client h w))
                (dialled w inbox handshake (drop 2 faults)),
             (Some (next_client h w), None))
        end
    end.
Proof.
  destruct w as [e l fs cs gs cl].
  unfold Connect, websocket_Dial, make_chan, dialled, next_client.
  destruct e as [err | inbox faults]; [reflexivity|].
  cbn [endpoint conns frames chans goroutines calls].
  destruct faults as [|[e1|] [|[e2|] faults]];
    rewrite JSON_Send_snoc;
    cbn [Conn_Send conn_closed conn_faults conn_inbox conn_outbox fst snd app];
    try reflexivity;
    rewrite JSON_Send_snoc;
    cbn [Conn_Send conn_closed conn_faults conn_inbox conn_outbox fst snd app];
    reflexivity.
Qed.

(** X9.  When the dial is accepted and neither configuration write meets a
    fault, Connect returns a client and no error.  The client holds the
    handler it was given, a new connection that is open, on which exactly
    the two payloads enableGestures and backgroundMessage were written, in
    this order, and nothing was read, and a new done channel that is open.
    Exactly one goroutine was started, for this client; it has not called
    the handler, and what existed before is unchanged. *)
Theorem Connect_success (h : option Handler) (w : World) (inbox : list Message)
        (faults : list (option error)) :
  endpoint w = Accepts inbox faults ->
  sends_pass faults = true ->
  exists w' c conn,
    Connect h w = (w', (Some c, None))
    /\ frameHandler c = h
    /\ ws c = Some (length (conns w))
    /\ conns w' = conns w ++ [conn]
    /\ conn_closed conn = false
    /\ conn_outbox conn = [[("enableGestures"%string, true)];
                           [("backgroundMessage"%string, true)]]
    /\ conn_inbox conn = inbox
    /\ Done c = length (chans w)
    /\ chans w' = chans w ++ [ChanOpen]
    /\ goroutines w' = goroutines w ++ [Starting c]
    /\ frames w' = frames w /\ calls w' = calls w.
Proof.
  intros He Hpass. rewrite Connect_cases, He.
  destruct faults as [|[e1|] [|[e2|] faults]]; try discriminate Hpass;
    do 3 eexists; repeat split.
Qed.

Lemma Connect_success_witness :
  exists w' c conn,
    Connect (Some 7%nat) (boot (Accepts [garbage] [None])) = (w', (Some c, None))
    /\ frameHandler c = Some 7%nat
    /\ ws c = Some 0%nat
    /\ conns w' = [conn]
    /\ conn_closed conn = false
    /\ conn_outbox conn = [[("enableGestures"%string, true)];
                           [("backgroundMessage"%string, true)]]
    /\ conn_inbox conn = [garbage]
    /\ Done c = 0%nat
    /\ chans w' = [ChanOpen]
    /\ goroutines w' = [Starting c]
    /\ frames w' = [] /\ calls w' = [].
Proof.
  exact (Connect_success (Some 7%nat) (boot (Accepts [garbage] [None]))
                         [garbage] [None] eq_refl eq_refl).
Defined.

(** X10.  Connect returns exactly one of a client and an error, and it
    starts the receive goroutine exactly when it returns a client: with a
    client there is one new goroutine, for that client, whose connection is
    not nil; with an error there is none.  In both cases the frames, the
    handler calls and the connections and channels that existed are left
    as they were, and when the dial itself is refused nothing at all is
    changed and the dial error is returned. *)
Theorem Connect_client_xor_error (h : option Handler) (w : World) :
  match snd (Connect h w) with
  | (Some c, None) =>
      goroutines (fst (Connect h w)) = goroutines w ++ [Starting c]
      /\ ws c <> None
  | (None, Some _) => goroutines (fst (Connect h w)) = goroutines w
  | _ => False
  end
  /\ frames (fst (Connect h w)) = frames w
  /\ calls (fst (Connect h w)) = calls w
  /\ conns w `prefix_of` conns (fst (Connect h w))
  /\ chans w `prefix_of` chans (fst (Connect h w))
  /\ (forall e, endpoint w = Refuses e -> Connect h w = (w, (None, Some e))).
Proof.
  rewrite Connect_cases.
  destruct (endpoint w) as [err | inbox faults].
  - cbn. repeat split; try reflexivity. intros e [= <-]. reflexivity.
  - destruct faults as [|[e1|] [|[e2|] faults]]; cbn;
      repeat split; try discriminate; try (eexists; reflexivity).
Qed.

Lemma Connect_client_xor_error_witness :
  Connect (Some 7%nat) (boot (Refuses "connection refused"%string))
  = (boot (Refuses "connection refused"%string),
     (None, Some "connection refused"%string)).
Proof.
  apply (Connect_client_xor_error
           (Some 7%nat) (boot (Refuses "connection refused"%string))).
  reflexivity.
Defined.

(** X11.  The configuration is written in order and stops at the first
    failure: when the first write fails nothing was written on the new
    connection, when the second fails only enableGestures was.  In both
    cases nothing was read from the connection, and the done channel that
    was made is left open. *)
Theorem Connect_partial_handshake (h : option Handler) (w : World)
        (inbox : list Message) (faults rest : list (option error)) (e : error) :
  endpoint w = Accepts inbox faults ->
  faults = Some e :: rest \/ faults = None :: Some e :: rest ->
  exists conn,
    conns (fst (Connect h w)) = conns w ++ [conn]
    /\ conn_outbox conn
       = match faults with
         | Some _ :: _ => []
         | _ => [[("enableGestures"%string, true)]]
         end
    /\ conn_inbox conn = inbox
    /\ chans (fst (Connect h w)) = chans w ++ [ChanOpen].
Proof.
  intros He [-> | ->]; rewrite Connect_cases, He; cbn;
    eexists; repeat split.
Qed.

Lemma Connect_partial_handshake_witness :
  exists conn,
    conns (fst (Connect None (boot (Accepts [garbage]
                                      [None; Some "broken pipe"%string]))))
    = [conn]
    /\ conn_outbox conn = [[("enableGestures"%string, true)]]
    /\ conn_inbox conn = [garbage]
    /\ chans (fst (Connect None (boot (Accepts [garbage]
                                         [None; Some "broken pipe"%string]))))
       = [ChanOpen].
Proof.
  apply (Connect_partial_handshake
           None (boot (Accepts [garbage] [None; Some "broken pipe"%string]))
           [garbage] [None; Some "broken pipe"%string] [] "broken pipe"%string).
  - reflexivity.
  - right. reflexivity.
Defined.






